(** * PyBrowser: address normalisation, DNS status line and navigation

    A shallow embedding of [main.py].  Python [str] values are sequences of
    Unicode code points; the operating system's resolver, [urlparse] and the
    Qt widgets are collaborators of the program and are taken as a
    [Platform] the development is parametric in. *)

From Stdlib Require Import List NArith ZArith Bool Lia String Ascii DecimalString.
Import ListNotations.

(** ** Python strings *)

Module Py.

Local Open Scope N_scope.

(** A code point. *)
Definition char := N.

(** [str]: an immutable sequence of code points. *)
Definition str := list char.

(** An ASCII literal of the source, as a [str]. *)
Definition lit (s : string) : str := map N_of_ascii (list_ascii_of_string s).

Definition eqb (a b : str) : bool :=
  if list_eq_dec N.eq_dec a b then true else false.

(** [not s] on a string: true exactly for the empty string. *)
Definition falsy (s : str) : bool :=
  match s with [] => true | _ :: _ => false end.

(** [str.isspace] on one code point, as [str.strip()] with no argument
    uses it: the code points CPython classifies as whitespace. *)
Definition isspace (c : char) : bool :=
  ((9 <=? c) && (c <=? 13)) || ((28 <=? c) && (c <=? 32))
  || (c =? 133) || (c =? 160) || (c =? 5760)
  || ((8192 <=? c) && (c <=? 8202))
  || (c =? 8232) || (c =? 8233) || (c =? 8239) || (c =? 8287)
  || (c =? 12288).

Fixpoint lstrip (s : str) : str :=
  match s with
  | [] => []
  | c :: r => if isspace c then lstrip r else s
  end.

Fixpoint rstrip (s : str) : str :=
  match s with
  | [] => []
  | c :: r =>
      match rstrip r with
      | [] => if isspace c then [] else [c]
      | t => c :: t
      end
  end.

(** [s.strip()]: skip whitespace from the left, then from the right. *)
Definition strip (s : str) : str := rstrip (lstrip s).

Fixpoint startswith (s p : str) {struct p} : bool :=
  match p, s with
  | [], _ => true
  | _ :: _, [] => false
  | a :: p', b :: s' => (a =? b) && startswith s' p'
  end.

(** [sub in s]. *)
Fixpoint contains (sub s : str) : bool :=
  startswith s sub ||
  match s with
  | [] => false
  | _ :: r => contains sub r
  end.

(** [sep.join(parts)]. *)
Fixpoint join (sep : str) (parts : list str) : str :=
  match parts with
  | [] => []
  | [p] => p
  | p :: rest => p ++ sep ++ join sep rest
  end.

(** [x in xs] for a list of strings. *)
Definition mem (x : str) (xs : list str) : bool := existsb (eqb x) xs.

(** [str(n)] for an integer. *)
Definition of_int (n : Z) : str := lit (NilZero.string_of_int (Z.to_int n)).

(** The position at which [x] is first seen in [xs]; the length of [xs]
    when it never is. *)
Fixpoint first_index (x : str) (xs : list str) : nat :=
  match xs with
  | [] => O
  | y :: r => if eqb x y then O else S (first_index x r)
  end.

(** [sub] occurs in [s] as a contiguous run. *)
Definition Infix (sub s : str) : Prop := exists p q, s = p ++ sub ++ q.

(** Whitespace only. *)
Definition Spaces (l : str) : Prop := Forall (fun c => isspace c = true) l.

(** No whitespace at either end. *)
Definition Tight (t : str) : Prop :=
  (forall c r, t = c :: r -> isspace c = false) /\
  (forall r c, t = r ++ [c] -> isspace c = false).

(** [t] is [s] with its leading and trailing whitespace removed. *)
Definition Trimmed (s t : str) : Prop :=
  exists l r, s = l ++ t ++ r /\
              Spaces l /\ Spaces r /\ Tight t.

End Py.

Notation "'p$' s" := (Py.lit s%string) (at level 9, s at level 0, no associativity).

(** ** The URL normaliser *)

Definition FALLBACK_URL : Py.str := p$"http://example.com".

Definition normalize_url (text : Py.str) : Py.str :=
  let text := Py.strip text in
  if Py.falsy text then FALLBACK_URL
  else
    let text :=
      if negb (Py.contains p$"://" text) then p$"http://" ++ text else text in
    text.

(** ** Exceptions *)

(** An instance of Python's [Exception]: its class name and [str(e)].
    These are what [except Exception] catches, and what the resolver
    ([socket.gaierror], [OSError], [UnicodeError]) and [urlparse]
    ([ValueError]) raise; [KeyboardInterrupt] and [SystemExit] are not
    instances of [Exception] and are outside the model. *)
Record Exception := mkException { exc_class : string; exc_str : Py.str }.

(** The outcome of a call: a value, or a raised exception. *)
Inductive result (A : Type) : Type :=
| Return (a : A)
| Raise (e : Exception).

Arguments Return {A} a.
Arguments Raise {A} e.

(** ** Records of the system resolver *)

(** The socket address of a record: [(address, port)] for AF_INET and
    [(address, port, flowinfo, scope_id)] for AF_INET6. *)
Inductive sockaddr : Type :=
| sockaddr_in (address : Py.str) (port : Z)
| sockaddr_in6 (address : Py.str) (port flowinfo scope_id : Z).

(** [sockaddr[0]]. *)
Definition sockaddr_0 (sa : sockaddr) : Py.str :=
  match sa with
  | sockaddr_in a _ => a
  | sockaddr_in6 a _ _ _ => a
  end.

(** One [(fam, stype, proto, canon, sockaddr)] tuple of [getaddrinfo]. *)
Record addrinfo := mkAddrinfo {
  ai_family : Z;
  ai_socktype : Z;
  ai_protocol : Z;
  ai_canonname : Py.str;
  ai_sockaddr : sockaddr
}.

(** ** Collaborators

    What the program calls and does not define: the resolver
    ([socket.getaddrinfo(hostname, None)], with the answers it gives at the
    time of the call), [urlparse(url).hostname] (a string, [None], or a
    raised [ValueError]) and Qt's [QUrl]. *)
Class Platform := {
  getaddrinfo : Py.str -> result (list addrinfo);
  urlparse_hostname : Py.str -> result (option Py.str);
  QUrl : Type;
  QUrl_new : Py.str -> QUrl;
  QUrl_toString : QUrl -> Py.str
}.

(** ** State and effects of the window *)

Section Browser.

Context {P : Platform}.

(** A call the program makes on a widget, on the view or on the resolver. *)
Inductive effect : Type :=
| AddressSetText (s : Py.str)
| StatusSetText (s : Py.str)
| SetWindowTitle (s : Py.str)
| Getaddrinfo (hostname : Py.str)
| ViewLoad (u : QUrl)
| ViewBack
| ViewForward
| ViewReload.

(** The texts the widgets hold, and the calls made so far, oldest first. *)
Record browser := mkBrowser {
  address : Py.str;
  status : Py.str;
  windowTitle : Py.str;
  log : list effect
}.

(** Computations over the window that may raise. *)
Definition M (A : Type) : Type := browser -> result A * browser.

Definition ret {A} (a : A) : M A := fun w => (Return a, w).

Definition bind {A B} (m : M A) (k : A -> M B) : M B :=
  fun w =>
    match m w with
    | (Return a, w') => k a w'
    | (Raise e, w') => (Raise e, w')
    end.

(** [try: body  except Exception as e: handler e]. *)
Definition try_except {A} (body : M A) (handler : Exception -> M A) : M A :=
  fun w =>
    match body w with
    | (Return a, w') => (Return a, w')
    | (Raise e, w') => handler e w'
    end.

Definition lift {A} (r : result A) : M A := fun w => (r, w).

Definition emit (e : effect) : M unit :=
  fun w => (Return tt,
            mkBrowser (address w) (status w) (windowTitle w) (log w ++ [e])).

End Browser.

Declare Scope py_scope.
Delimit Scope py_scope with py.
Notation "x <- m ;; k" := (bind m (fun x => k))
  (at level 61, m at next level, right associativity) : py_scope.
Notation "m ;; k" := (bind m (fun _ => k))
  (at level 61, right associativity) : py_scope.

(** ** The hostname resolver *)

Section Resolver.

Context {P : Platform}.
Local Open Scope py_scope.

(** [socket.getaddrinfo(hostname, None)]: one query of the resolver. *)
Definition socket_getaddrinfo (hostname : Py.str) : M (list addrinfo) :=
  emit (Getaddrinfo hostname) ;; lift (getaddrinfo hostname).

(** One turn of the [for] loop of [resolve_dns]. *)
Definition collect_ip (ips : list Py.str) (info : addrinfo) : list Py.str :=
  let ip := sockaddr_0 (ai_sockaddr info) in
  if negb (Py.mem ip ips) then ips ++ [ip] else ips.

Definition resolve_dns (hostname : Py.str) : M (list Py.str) :=
  try_except
    (infos <- socket_getaddrinfo hostname ;;
     let ips := fold_left collect_ip infos [] in
     ret ips)
    (fun _ => ret []).

End Resolver.

(** The address portion of each record, in the order of the records. *)
Definition addresses (infos : list addrinfo) : list Py.str :=
  map (fun info => sockaddr_0 (ai_sockaddr info)) infos.

(** The list the loop of [resolve_dns] builds from the records. *)
Definition collected (infos : list addrinfo) : list Py.str :=
  fold_left collect_ip infos [].

(** ** The window *)

Module PyBrowser.

Section Window.

Context {P : Platform}.
Local Open Scope py_scope.

Definition HOME_URL : Py.str := p$"https://example.com".

(** U+2192, the arrow of the status line. *)
Definition ARROW : Py.char := 8594%N.

Definition address_text : M Py.str := fun w => (Return (address w), w).

Definition address_setText (s : Py.str) : M unit :=
  fun w => (Return tt,
            mkBrowser s (status w) (windowTitle w) (log w ++ [AddressSetText s])).

Definition status_setText (s : Py.str) : M unit :=
  fun w => (Return tt,
            mkBrowser (address w) s (windowTitle w) (log w ++ [StatusSetText s])).

Definition setWindowTitle (s : Py.str) : M unit :=
  fun w => (Return tt,
            mkBrowser (address w) (status w) s (log w ++ [SetWindowTitle s])).

Definition view_load (u : QUrl) : M unit := emit (ViewLoad u).
Definition view_back : M unit := emit ViewBack.
Definition view_forward : M unit := emit ViewForward.
Definition view_reload : M unit := emit ViewReload.

(** [h or ""] for [h] a string or [None]. *)
Definition or_empty (h : option Py.str) : Py.str :=
  match h with
  | Some s => if Py.falsy s then [] else s
  | None => []
  end.

(** The two f-strings of the DNS line, and the one of the error line. *)
Definition dns_line (hostname : Py.str) (ips : list Py.str) : Py.str :=
  p$"DNS: " ++ hostname ++ p$" " ++ [ARROW] ++ p$" " ++ Py.join p$", " ips.

Definition dns_no_result (hostname : Py.str) : Py.str :=
  p$"DNS: " ++ hostname ++ p$" " ++ [ARROW] ++ p$" (no result)".

Definition dns_error (e : Exception) : Py.str :=
  p$"DNS error: " ++ exc_str e.

Definition load_from_address : M unit :=
  text <- address_text ;;
  let url_text := normalize_url text in
  try_except
    (parsed <- lift (urlparse_hostname url_text) ;;
     let hostname := or_empty parsed in
     ips <- resolve_dns hostname ;;
     match ips with
     | _ :: _ => status_setText (dns_line hostname ips)
     | [] => status_setText (dns_no_result hostname)
     end)
    (fun e => status_setText (dns_error e)) ;;
  view_load (QUrl_new url_text).

Definition go_home : M unit :=
  address_setText HOME_URL ;;
  load_from_address.

Definition on_url_changed (qurl : QUrl) : M unit :=
  address_setText (QUrl_toString qurl).

Definition on_load_progress (percent : Z) : M unit :=
  setWindowTitle (p$"PyBrowser   " ++ Py.of_int percent ++ p$"%") ;;
  if (percent =? 100)%Z then setWindowTitle p$"PyBrowser" else ret tt.

(** The widgets as their constructors leave them: an empty address field,
    the status label reading "Ready", no call made yet. *)
Definition fresh : browser := mkBrowser [] p$"Ready" [] [].

(** [__init__], from the title on; the layout carries no state. *)
Definition init : M unit :=
  setWindowTitle p$"PyBrowser" ;;
  address_setText HOME_URL ;;
  load_from_address.

(** The signals [__init__] connects, and the user's editing of the address
    field, which is connected to nothing. *)
Inductive signal : Type :=
| back_clicked
| fwd_clicked
| reload_clicked
| home_clicked
| go_clicked
| address_returnPressed
| view_urlChanged (qurl : QUrl)
| view_loadProgress (percent : Z)
| address_textEdited (text : Py.str).

(** The slot each signal is connected to. *)
Definition slot (s : signal) : M unit :=
  match s with
  | back_clicked => view_back
  | fwd_clicked => view_forward
  | reload_clicked => view_reload
  | home_clicked => go_home
  | go_clicked => load_from_address
  | address_returnPressed => load_from_address
  | view_urlChanged qurl => on_url_changed qurl
  | view_loadProgress percent => on_load_progress percent
  | address_textEdited text =>
      fun w => (Return tt, mkBrowser text (status w) (windowTitle w) (log w))
  end.

(** The window after a signal is delivered. *)
Definition deliver (s : signal) (w : browser) : browser := snd (slot s w).

(** The calls a signal adds to the log. *)
Definition added (s : signal) (w : browser) : list effect :=
  skipn (List.length (log w)) (log (deliver s w)).

(** Go, Enter and Home: the triggers that navigate from the address. *)
Definition explicit (s : signal) : bool :=
  match s with
  | go_clicked | address_returnPressed | home_clicked => true
  | _ => false
  end.

(** The address text a trigger navigates from: Home puts its own. *)
Definition entered (s : signal) (w : browser) : Py.str :=
  match s with
  | home_clicked => HOME_URL
  | _ => address w
  end.

(** The calls a trigger makes before it reads the address field. *)
Definition preamble (s : signal) : list effect :=
  match s with
  | home_clicked => [AddressSetText HOME_URL]
  | _ => []
  end.

(** The kinds of call the properties below count. *)
Definition is_load (e : effect) : bool :=
  match e with ViewLoad _ => true | _ => false end.

Definition is_status (e : effect) : bool :=
  match e with StatusSetText _ => true | _ => false end.

Definition is_query (e : effect) : bool :=
  match e with Getaddrinfo _ => true | _ => false end.

(** Every load in [l] comes right after a status update. *)
Definition status_before_load (l : list effect) : Prop :=
  forall pre u post,
    l = pre ++ ViewLoad u :: post ->
    exists pre' st, pre = pre' ++ [StatusSetText st].

(** The titles the window shows: the plain one, or one with a percentage
    other than 100. *)
Definition title_shape (t : Py.str) : Prop :=
  t = p$"PyBrowser" \/
  exists percent : Z,
    percent <> 100%Z /\ t = p$"PyBrowser   " ++ Py.of_int percent ++ p$"%".

(** The event loop entered by [main]: the signals that arrive are
    delivered one at a time, each slot run to its end before the next. *)
Definition run (signals : list signal) (w : browser) : browser :=
  fold_left (fun w s => deliver s w) signals w.

(** [main]: the window is constructed, then the event loop runs. *)
Definition main (signals : list signal) : browser :=
  run signals (snd (init fresh)).

End Window.

(** The status line in the words of the specification:
    [<hostname> -> <ip1>, <ip2>, ...], or [<hostname> -> (no result)]. *)
Definition spec_status_line (hostname : Py.str) (ips : list Py.str) : Py.str :=
  match ips with
  | [] => hostname ++ p$" -> (no result)"
  | _ :: _ => hostname ++ p$" -> " ++ Py.join p$", " ips
  end.

End PyBrowser.

(** ** A platform for closed examples

    A resolver that knows one host, which it reports once per socket type
    and address family, and a URL parser that knows a handful of URLs. *)

Module Demo.

Definition example_com : list addrinfo :=
  [ mkAddrinfo 2 1 6 [] (sockaddr_in p$"93.184.216.34" 0);
    mkAddrinfo 2 2 17 [] (sockaddr_in p$"93.184.216.34" 0);
    mkAddrinfo 10 1 6 [] (sockaddr_in6 p$"2606:2800:220:1::1946" 0 0 0);
    mkAddrinfo 2 3 0 [] (sockaddr_in p$"93.184.216.34" 0);
    mkAddrinfo 10 2 17 [] (sockaddr_in6 p$"2606:2800:220:1::1946" 0 0 0) ].

Definition gaierror : Exception :=
  mkException "socket.gaierror" p$"[Errno -2] Name or service not known".

Definition invalid_ipv6 : Exception :=
  mkException "ValueError" p$"Invalid IPv6 URL".

Definition lookup (hostname : Py.str) : result (list addrinfo) :=
  if Py.eqb hostname p$"example.com" then Return example_com
  else Raise gaierror.

Definition hostname_of (url : Py.str) : result (option Py.str) :=
  if Py.eqb url p$"http://example.com" then Return (Some p$"example.com")
  else if Py.eqb url p$"https://example.com" then Return (Some p$"example.com")
  else if Py.eqb url p$"http://nowhere.invalid" then Return (Some p$"nowhere.invalid")
  else if Py.eqb url p$"http://[::1" then Raise invalid_ipv6
  else Return None.

Definition platform : Platform :=
  {| getaddrinfo := lookup;
     urlparse_hostname := hostname_of;
     QUrl := Py.str;
     QUrl_new := fun s => s;
     QUrl_toString := fun u => u |}.

(** A window in which the user has typed [text]. *)
Definition typed (text : Py.str) : browser (P := platform) :=
  mkBrowser (P := platform) text p$"Ready" p$"PyBrowser" [].

End Demo.

(** ** A second platform for closed examples

    A resolver that knows a host with one IPv4 and one IPv6 address, each
    reported once; nothing parses. *)

Module Lab.

Definition dual_stack : list addrinfo :=
  [ mkAddrinfo 2 1 6 [] (sockaddr_in p$"192.0.2.7" 0);
    mkAddrinfo 10 1 6 [] (sockaddr_in6 p$"2001:db8::7" 0 0 0) ].

Definition lookup (hostname : Py.str) : result (list addrinfo) :=
  if Py.eqb hostname p$"dual.test" then Return dual_stack
  else if Py.eqb hostname p$"empty.test" then Return []
  else Raise (mkException "socket.gaierror" p$"[Errno -2] Name or service not known").

Definition platform : Platform :=
  {| getaddrinfo := lookup;
     urlparse_hostname := fun _ => Return None;
     QUrl := Py.str;
     QUrl_new := fun s => s;
     QUrl_toString := fun u => u |}.

Definition window : browser (P := platform) :=
  mkBrowser (P := platform) p$"dual.test" p$"Ready" p$"PyBrowser" [].

End Lab.

(** * Properties *)

(** ** Stripping and searching *)

Module PyFacts.

Import Py.

Lemma eqb_true_iff (a b : str) : eqb a b = true <-> a = b.
Proof.
  unfold eqb. destruct (list_eq_dec N.eq_dec a b); split; congruence.
Qed.

Lemma mem_true_iff (x : str) (xs : list str) : mem x xs = true <-> In x xs.
Proof.
  unfold mem. rewrite existsb_exists. split.
  - intros [y [Hy E]]. apply eqb_true_iff in E. now subst.
  - intros H. exists x. split; [assumption | now apply eqb_true_iff].
Qed.

Lemma lstrip_split (s : str) :
  exists l, s = l ++ lstrip s /\ Spaces l.
Proof.
  unfold Spaces. induction s as [| c r [l [E Hl]]]; simpl.
  - now exists [].
  - destruct (isspace c) eqn:Hc.
    + exists (c :: l). split; [simpl; congruence | now constructor].
    + now exists [].
Qed.

Lemma lstrip_head (s : str) c r : lstrip s = c :: r -> isspace c = false.
Proof.
  induction s as [| d s IH]; simpl; [discriminate |].
  destruct (isspace d) eqn:Hd; [assumption |].
  intros E. injection E as -> _. assumption.
Qed.

Lemma lstrip_spaces (l x : str) : Spaces l -> lstrip (l ++ x) = lstrip x.
Proof.
  unfold Spaces. induction 1 as [| c l Hc _ IH]; simpl; [reflexivity |]. now rewrite Hc.
Qed.

Lemma lstrip_all_spaces (l : str) : Spaces l -> lstrip l = [].
Proof.
  intros H. rewrite <- (app_nil_r l). now rewrite (lstrip_spaces _ _ H).
Qed.

Lemma rstrip_snoc (s : str) c :
  rstrip (s ++ [c]) = if isspace c then rstrip s else s ++ [c].
Proof.
  induction s as [| d s IH]; simpl.
  - now destruct (isspace c).
  - rewrite IH. destruct (isspace c); [reflexivity |].
    destruct (s ++ [c]) eqn:E; [now destruct s | reflexivity].
Qed.

Lemma rstrip_split (s : str) :
  exists r, s = rstrip s ++ r /\ Spaces r.
Proof.
  unfold Spaces. induction s as [| c s IH] using rev_ind.
  - now exists [].
  - rewrite rstrip_snoc. destruct (isspace c) eqn:Hc.
    + destruct IH as [r [E Hr]]. exists (r ++ [c]). split.
      * rewrite app_assoc. now rewrite <- E.
      * apply Forall_app. split; [assumption | now repeat constructor].
    + exists []. now rewrite app_nil_r.
Qed.

Lemma rstrip_last (s r : str) c : rstrip s = r ++ [c] -> isspace c = false.
Proof.
  induction s as [| d s IH] using rev_ind; simpl.
  - now destruct r.
  - rewrite rstrip_snoc. destruct (isspace d) eqn:Hd; [assumption |].
    intros E. apply app_inj_tail in E as [_ <-]. assumption.
Qed.

Lemma rstrip_spaces (x r : str) : Spaces r -> rstrip (x ++ r) = rstrip x.
Proof.
  unfold Spaces. induction r as [| c r IH] using rev_ind; intros H.
  - now rewrite app_nil_r.
  - apply Forall_app in H as [Hr Hc]. inversion_clear Hc as [| ? ? Hc' _].
    rewrite app_assoc, rstrip_snoc, Hc'. now apply IH.
Qed.

Lemma rstrip_head (s : str) c r :
  (forall d q, s = d :: q -> isspace d = false) ->
  rstrip s = c :: r -> isspace c = false.
Proof.
  intros Hs E. destruct (rstrip_split s) as [q [Es _]].
  rewrite E in Es. simpl in Es. eapply Hs. eassumption.
Qed.

Lemma tight_rstrip (t : str) :
  (forall r c, t = r ++ [c] -> isspace c = false) -> rstrip t = t.
Proof.
  destruct t as [| c t] using rev_ind; [reflexivity |].
  intros H. rewrite rstrip_snoc. now rewrite (H t c eq_refl).
Qed.

Lemma tight_lstrip (t : str) :
  (forall c r, t = c :: r -> isspace c = false) -> lstrip t = t.
Proof.
  destruct t as [| c t]; [reflexivity |].
  intros H. simpl. now rewrite (H c t eq_refl).
Qed.

Lemma tight_strip (t : str) : Tight t -> strip t = t.
Proof.
  intros [Hl Hr]. unfold strip. rewrite (tight_lstrip _ Hl). now apply tight_rstrip.
Qed.

Lemma strip_tight (s : str) : Tight (strip s).
Proof.
  unfold strip. split.
  - intros c r E. eapply rstrip_head; [| exact E].
    intros d q Ed. eapply lstrip_head. exact Ed.
  - intros r c E. eapply rstrip_last. exact E.
Qed.

Lemma strip_trimmed (s : str) : Trimmed s (strip s).
Proof.
  destruct (lstrip_split s) as [l [El Hl]].
  destruct (rstrip_split (lstrip s)) as [r [Er Hr]].
  exists l, r. repeat split; try assumption.
  - unfold strip. now rewrite <- Er.
  - apply strip_tight.
  - apply strip_tight.
Qed.

(** Trimming has one outcome, the one [strip] computes. *)
Lemma trimmed_strip (s t : str) : Trimmed s t -> t = strip s.
Proof.
  intros [l [r [-> [Hl [Hr [Ht1 Ht2]]]]]].
  unfold strip. rewrite (lstrip_spaces _ _ Hl).
  destruct t as [| c t].
  - simpl. now rewrite (lstrip_all_spaces _ Hr).
  - rewrite tight_lstrip.
    + rewrite (rstrip_spaces _ _ Hr). symmetry. now apply tight_rstrip.
    + intros d q E. simpl in E. injection E as <- _. now apply (Ht1 c t).
Qed.

Lemma startswith_iff (s p : str) :
  startswith s p = true <-> exists q, s = p ++ q.
Proof.
  revert s. induction p as [| a p IH]; intros s; simpl.
  - split; [intros _; now exists s | reflexivity].
  - destruct s as [| b s].
    + split; [discriminate | intros [q E]; discriminate].
    + rewrite andb_true_iff, N.eqb_eq, IH. split.
      * intros [-> [q ->]]. now exists q.
      * intros [q E]. injection E as -> ->. split; [reflexivity | now exists q].
Qed.

Lemma contains_iff (sub s : str) : contains sub s = true <-> Infix sub s.
Proof.
  unfold Infix. induction s as [| c s IH]; simpl.
  - rewrite orb_false_r, startswith_iff. split.
    + intros [q E]. now exists [], q.
    + intros [p [q E]]. destruct p; [now exists q | discriminate].
  - rewrite orb_true_iff, startswith_iff, IH. split.
    + intros [[q E] | [p [q E]]].
      * now exists [], q.
      * exists (c :: p), q. simpl. congruence.
    + intros [[| d p] [q E]].
      * left. now exists q.
      * right. injection E as _ ->. now exists p, q.
Qed.

Lemma contains_false_iff (sub s : str) : contains sub s = false <-> ~ Infix sub s.
Proof.
  rewrite <- contains_iff. now destruct (contains sub s).
Qed.

End PyFacts.

(** ** The normaliser *)

Section Normalizer.

Import Py PyFacts.

(** What [normalize_url] returns, by the shape of the stripped text. *)
Lemma normalize_url_unfold (s : str) :
  normalize_url s =
    if falsy (strip s) then FALLBACK_URL
    else if contains p$"://" (strip s) then strip s
    else p$"http://" ++ strip s.
Proof.
  unfold normalize_url. destruct (falsy (strip s)); [reflexivity |].
  now destruct (contains _ (strip s)).
Qed.

Lemma normalize_url_shape (s : str) :
  normalize_url s <> [] /\ Tight (normalize_url s) /\
  contains p$"://" (normalize_url s) = true.
Proof.
  rewrite normalize_url_unfold. pose proof (strip_tight s) as Ht.
  destruct (strip s) as [| c t] eqn:E; cbn [falsy].
  - split; [discriminate | split; [split | reflexivity]].
    + intros d r H. injection H as <- _. reflexivity.
    + intros r d H. change FALLBACK_URL with (p$"http://example.co" ++ [109%N]) in H.
      apply app_inj_tail in H as [_ <-]. reflexivity.
  - destruct (contains p$"://" (c :: t)) eqn:Hc.
    + split; [discriminate | split; [exact Ht | exact Hc]].
    + split; [discriminate | split; [split |]].
      * intros d r H. injection H as <- _. reflexivity.
      * intros r d H. destruct Ht as [_ Ht].
        destruct (@exists_last _ (c :: t)) as [t' [c' Et]]; [discriminate |].
        rewrite Et, app_assoc in H. apply app_inj_tail in H as [_ <-].
        now apply (Ht t' c').
      * apply contains_iff. exists (p$"http"), (c :: t). reflexivity.
Qed.

End Normalizer.

Section NormalizerClaims.

Import Py PyFacts.

(** C4: [normalize_url s] is the fallback URL when [s] trimmed of leading
    and trailing whitespace is empty, ["http://"] followed by the trimmed
    text when that text has no ["://"], and the trimmed text itself when it
    has one, wherever it stands.  Every text has a trimmed form, and
    [normalize_url ""], [normalize_url "   "] and
    [normalize_url "example.com"] are as the specification lists them. *)
Theorem normalize_url_cases :
  (forall s, exists t, Trimmed s t) /\
  (forall s t, Trimmed s t ->
     (t = [] -> normalize_url s = FALLBACK_URL) /\
     (t <> [] -> ~ Infix p$"://" t -> normalize_url s = p$"http://" ++ t) /\
     (t <> [] -> Infix p$"://" t -> normalize_url s = t)) /\
  normalize_url p$"" = FALLBACK_URL /\
  normalize_url p$"   " = FALLBACK_URL /\
  normalize_url p$"example.com" = p$"http://example.com" /\
  normalize_url p$"exa://mple" = p$"exa://mple".
Proof.
  split; [intros s; exists (strip s); apply strip_trimmed |].
  split; [| repeat split; reflexivity].
  intros s t Ht. apply trimmed_strip in Ht. subst t.
  rewrite normalize_url_unfold. repeat split.
  - intros ->. reflexivity.
  - intros Hne Hno. apply contains_false_iff in Hno. rewrite Hno.
    destruct (strip s); [contradiction | reflexivity].
  - intros Hne Hyes. apply contains_iff in Hyes. rewrite Hyes.
    destruct (strip s); [contradiction | reflexivity].
Qed.

(** C5: [normalize_url s] is never empty and always contains ["://"]. *)
Theorem normalize_url_has_scheme (s : str) :
  normalize_url s <> [] /\ Infix p$"://" (normalize_url s).
Proof.
  destruct (normalize_url_shape s) as [Hne [_ Hc]].
  split; [exact Hne | now apply contains_iff].
Qed.

(** C6: normalising twice is normalising once, and
    ["https://example.com"] is left as it is. *)
Theorem normalize_url_idempotent :
  (forall s, normalize_url (normalize_url s) = normalize_url s) /\
  normalize_url p$"https://example.com" = p$"https://example.com".
Proof.
  split; [| reflexivity].
  intros s. destruct (normalize_url_shape s) as [Hne [Ht Hc]].
  rewrite (normalize_url_unfold (normalize_url s)).
  rewrite (tight_strip _ Ht), Hc.
  destruct (normalize_url s); [contradiction | reflexivity].
Qed.

End NormalizerClaims.

(** ** The resolver *)

Module ResolverFacts.

Import Py PyFacts.

Lemma first_index_lt (x : str) (l : list str) :
  (first_index x l < List.length l)%nat <-> In x l.
Proof.
  induction l as [| y l IH]; simpl.
  - split; [lia | tauto].
  - destruct (eqb x y) eqn:E.
    + apply eqb_true_iff in E. split; [auto | lia].
    + rewrite <- Nat.succ_lt_mono, IH. split; [auto |].
      intros [H | H]; [| exact H]. subst y.
      assert (eqb x x = true) by now apply eqb_true_iff. congruence.
Qed.

Lemma first_index_app_in (x : str) (l m : list str) :
  In x l -> first_index x (l ++ m) = first_index x l.
Proof.
  induction l as [| y l IH]; simpl; [tauto |].
  destruct (eqb x y) eqn:E; [reflexivity |].
  intros [H | H].
  - subst y. assert (eqb x x = true) by now apply eqb_true_iff. congruence.
  - now rewrite IH.
Qed.

Lemma first_index_app_new (x : str) (l : list str) :
  ~ In x l -> first_index x (l ++ [x]) = List.length l.
Proof.
  induction l as [| y l IH]; simpl; intros H.
  - assert (E : eqb x x = true) by now apply eqb_true_iff. now rewrite E.
  - destruct (eqb x y) eqn:E.
    + apply eqb_true_iff in E. exfalso. apply H. left. now symmetry.
    + rewrite IH; tauto.
Qed.

Lemma collected_snoc (infos : list addrinfo) (info : addrinfo) :
  collected (infos ++ [info]) = collect_ip (collected infos) info.
Proof. unfold collected. now rewrite fold_left_app. Qed.

Lemma collected_In (infos : list addrinfo) (a : str) :
  In a (collected infos) <-> In a (addresses infos).
Proof.
  induction infos as [| info infos IH] using rev_ind; [reflexivity |].
  rewrite collected_snoc. unfold addresses. rewrite map_app, in_app_iff.
  fold (addresses infos). rewrite <- IH. unfold collect_ip. simpl.
  destruct (mem _ (collected infos)) eqn:E; simpl.
  - apply mem_true_iff in E. split; [tauto |].
    intros [H | [<- | []]]; assumption.
  - rewrite in_app_iff. simpl. tauto.
Qed.

Lemma collected_NoDup (infos : list addrinfo) : NoDup (collected infos).
Proof.
  induction infos as [| info infos IH] using rev_ind; [constructor |].
  rewrite collected_snoc. unfold collect_ip.
  destruct (mem _ (collected infos)) eqn:E; simpl; [assumption |].
  apply NoDup_rev in IH. rewrite <- (rev_involutive (_ ++ _)).
  apply NoDup_rev. rewrite rev_app_distr. simpl. constructor; [| assumption].
  rewrite <- in_rev. intros H. apply mem_true_iff in H. congruence.
Qed.

Lemma collected_order (infos : list addrinfo) (a b : str) :
  In a (collected infos) -> In b (collected infos) ->
  (first_index a (collected infos) < first_index b (collected infos))%nat <->
  (first_index a (addresses infos) < first_index b (addresses infos))%nat.
Proof.
  revert a b.
  induction infos as [| info infos IH] using rev_ind; intros a b; [intros [] |].
  rewrite collected_snoc. unfold addresses. rewrite map_app.
  fold (addresses infos). simpl. unfold collect_ip.
  set (ip := sockaddr_0 (ai_sockaddr info)).
  destruct (mem ip (collected infos)) eqn:E; simpl.
  - intros Ha Hb.
    rewrite !first_index_app_in by now apply collected_In.
    now apply IH.
  - assert (Hnew : ~ In ip (collected infos)).
    { intros H. apply mem_true_iff in H. congruence. }
    assert (Hnew' : ~ In ip (addresses infos)) by now rewrite <- collected_In.
    rewrite !in_app_iff. simpl.
    intros [Ha | [<- | []]] [Hb | [<- | []]].
    + rewrite !first_index_app_in by (assumption || now apply collected_In).
      now apply IH.
    + rewrite (first_index_app_in _ _ _ Ha).
      rewrite (first_index_app_new _ _ Hnew).
      rewrite first_index_app_in by now apply collected_In.
      rewrite (first_index_app_new _ _ Hnew').
      rewrite !first_index_lt. rewrite <- collected_In. tauto.
    + rewrite (first_index_app_in _ _ _ Hb).
      rewrite (first_index_app_new _ _ Hnew).
      rewrite (first_index_app_in b (addresses infos)) by now apply collected_In.
      rewrite (first_index_app_new _ _ Hnew').
      pose proof (proj2 (first_index_lt b (collected infos)) Hb).
      pose proof (proj2 (first_index_lt b (addresses infos))
                    (proj1 (collected_In infos b) Hb)).
      lia.
    + lia.
Qed.

Section Run.

Context {P : Platform}.

(** One call of [resolve_dns]: one query, logged, and its outcome. *)
Lemma resolve_dns_run (hostname : str) (w : browser) :
  resolve_dns hostname w =
    (Return match getaddrinfo hostname with
            | Return infos => collected infos
            | Raise _ => []
            end,
     mkBrowser (address w) (status w) (windowTitle w)
               (log w ++ [Getaddrinfo hostname])).
Proof.
  unfold resolve_dns, try_except, socket_getaddrinfo, bind, emit, lift, ret.
  now destruct (getaddrinfo hostname).
Qed.

End Run.

End ResolverFacts.

Section ResolverClaims.

Import Py ResolverFacts.
Context {P : Platform}.

(** C2: [resolve_dns] returns a list for every hostname and never raises;
    when the resolver fails, whatever the failure, the list is empty. *)
Theorem resolve_dns_never_raises (hostname : str) (w : browser) :
  (exists ips, fst (resolve_dns hostname w) = Return ips) /\
  (forall e, getaddrinfo hostname = Raise e ->
             fst (resolve_dns hostname w) = Return []).
Proof.
  rewrite resolve_dns_run. simpl. split.
  - eexists. reflexivity.
  - intros e ->. reflexivity.
Qed.

(** C3: when the resolver answers with records, [resolve_dns] returns a
    list without duplicates, whose entries are exactly the addresses of the
    records, ordered as the addresses are first seen in the records. *)
Theorem resolve_dns_first_seen (hostname : str) (w : browser)
    (infos : list addrinfo) :
  getaddrinfo hostname = Return infos ->
  exists ips,
    fst (resolve_dns hostname w) = Return ips /\
    NoDup ips /\
    (forall a, In a ips <->
               exists info, In info infos /\ a = sockaddr_0 (ai_sockaddr info)) /\
    (forall a b, In a ips -> In b ips ->
       (first_index a ips < first_index b ips)%nat <->
       (first_index a (map (fun info => sockaddr_0 (ai_sockaddr info)) infos) <
        first_index b (map (fun info => sockaddr_0 (ai_sockaddr info)) infos))%nat).
Proof.
  intros E. exists (collected infos). rewrite resolve_dns_run, E. simpl.
  split; [reflexivity |]. split; [apply collected_NoDup |]. split.
  - intros a. rewrite collected_In. unfold addresses. rewrite in_map_iff.
    split; intros [info [H1 H2]]; exists info; split; congruence || assumption.
  - intros a b. apply collected_order.
Qed.

End ResolverClaims.

(** ** The window *)

Module WindowFacts.

Import Py PyBrowser ResolverFacts.

Lemma skipn_own_length {A} (l x : list A) : skipn (List.length l) (l ++ x) = x.
Proof. induction l as [| a l IH]; simpl; [reflexivity | exact IH]. Qed.

Section Run.

Context {P : Platform}.

(** The value [resolve_dns] returns does not depend on the window. *)
Lemma resolve_dns_value (hostname : str) (w w' : browser) :
  fst (resolve_dns hostname w) = fst (resolve_dns hostname w').
Proof. now rewrite !resolve_dns_run. Qed.

(** One run of [load_from_address] from an address field holding [a]: the
    status text [st] it leaves, the query [nav] it makes before, and how
    both come from the outcome of parsing. *)
Lemma load_from_address_run (a : str) :
  exists st nav,
    (forall w, address w = a ->
       load_from_address w =
         (Return tt,
          mkBrowser a st (windowTitle w)
            (log w ++ nav ++
               [StatusSetText st; ViewLoad (QUrl_new (normalize_url a))]))) /\
    match urlparse_hostname (normalize_url a) with
    | Return h =>
        exists ips,
          (forall w, fst (resolve_dns (or_empty h) w) = Return ips) /\
          nav = [Getaddrinfo (or_empty h)] /\
          st = match ips with
               | [] => dns_no_result (or_empty h)
               | _ :: _ => dns_line (or_empty h) ips
               end
    | Raise e => nav = [] /\ st = dns_error e
    end.
Proof.
  destruct (urlparse_hostname (normalize_url a)) as [h | e] eqn:E.
  - set (ips := match getaddrinfo (or_empty h) with
                | Return infos => collected infos
                | Raise _ => []
                end).
    exists (match ips with
            | [] => dns_no_result (or_empty h)
            | _ :: _ => dns_line (or_empty h) ips
            end), [Getaddrinfo (or_empty h)].
    split.
    + intros w <-.
      unfold load_from_address, bind, try_except, address_text, lift.
      rewrite E, resolve_dns_run. fold ips.
      destruct ips; unfold status_setText, view_load, emit; simpl;
        now rewrite <- !app_assoc.
    + exists ips. split; [| split; reflexivity].
      intros w. now rewrite resolve_dns_run.
  - exists (dns_error e), []. split; [| split; reflexivity].
    intros w <-.
    unfold load_from_address, bind, try_except, address_text, lift.
    rewrite E. unfold status_setText, view_load, emit; simpl.
    now rewrite <- !app_assoc.
Qed.

(** A trigger that navigates runs [load_from_address] on the address it
    navigates from, after its preamble. *)
Lemma explicit_slot (s : signal) (w : browser) :
  explicit s = true ->
  slot s w =
    load_from_address
      (mkBrowser (entered s w) (status w) (windowTitle w) (log w ++ preamble s)).
Proof.
  destruct s; try discriminate; intros _; simpl;
    try (rewrite app_nil_r; now destruct w).
  reflexivity.
Qed.

End Run.

End WindowFacts.

Section WindowClaims.

Import Py PyBrowser WindowFacts.
Context {P : Platform}.

(** C1, amended: on Go, Enter or Home, when the normalised address parses to
    the hostname [h] and resolution returns [ips], the window queries the
    resolver for [h], sets the status to ["DNS: <h> → <ip1>, <ip2>, ..."],
    or to ["DNS: <h> → (no result)"] when [ips] is empty, and then asks the
    view to load the normalised URL; these are its only calls after the
    trigger's own. *)
Theorem navigation_shows_dns_then_loads (s : signal) (w : browser)
    (h : option str) (ips : list str) :
  explicit s = true ->
  urlparse_hostname (normalize_url (entered s w)) = Return h ->
  fst (resolve_dns (or_empty h) w) = Return ips ->
  status (deliver s w) =
    match ips with
    | [] => p$"DNS: " ++ or_empty h ++ p$" " ++ [ARROW] ++ p$" (no result)"
    | _ :: _ =>
        p$"DNS: " ++ or_empty h ++ p$" " ++ [ARROW] ++ p$" " ++ join p$", " ips
    end /\
  added s w =
    preamble s ++
    [Getaddrinfo (or_empty h);
     StatusSetText (status (deliver s w));
     ViewLoad (QUrl_new (normalize_url (entered s w)))].
Proof.
  intros Hs Hp Hr. unfold added, deliver. rewrite (explicit_slot s w Hs).
  destruct (load_from_address_run (entered s w)) as [st [nav [Hrun Hcase]]].
  rewrite Hrun by reflexivity. rewrite Hp in Hcase.
  destruct Hcase as [ips' [Hips [-> ->]]].
  rewrite Hips in Hr. injection Hr as ->. simpl.
  split; [now destruct ips |].
  now rewrite <- app_assoc, skipn_own_length.
Qed.

(** C7: a navigation never raises and always ends by asking the view to
    load the normalised URL; when parsing that URL for its hostname raises
    [e], the status becomes ["DNS error: "] followed by [str(e)], the
    resolver is not queried, and the load is still made. *)
Theorem parse_error_shown_and_load_proceeds (s : signal) (w : browser) :
  explicit s = true ->
  fst (slot s w) = Return tt /\
  (exists before,
     added s w =
       before ++ [ViewLoad (QUrl_new (normalize_url (entered s w)))]) /\
  (forall e,
     urlparse_hostname (normalize_url (entered s w)) = Raise e ->
     status (deliver s w) = p$"DNS error: " ++ exc_str e /\
     added s w =
       preamble s ++
       [StatusSetText (p$"DNS error: " ++ exc_str e);
        ViewLoad (QUrl_new (normalize_url (entered s w)))]).
Proof.
  intros Hs. unfold added, deliver. rewrite (explicit_slot s w Hs).
  destruct (load_from_address_run (entered s w)) as [st [nav [Hrun Hcase]]].
  rewrite Hrun by reflexivity. simpl. split; [reflexivity |]. split.
  - exists (preamble s ++ nav ++ [StatusSetText st]).
    rewrite <- !app_assoc, skipn_own_length. reflexivity.
  - intros e He. rewrite He in Hcase. destruct Hcase as [-> ->].
    split; [reflexivity |].
    now rewrite <- app_assoc, skipn_own_length.
Qed.

(** C8: on [urlChanged(u)] the address field is set to [u.toString()] and
    nothing else happens: status and title stay, and the one call made is
    that [setText]; no resolver query, no status update, no load. *)
Theorem url_changed_only_sets_address (qurl : QUrl) (w : browser) :
  slot (view_urlChanged qurl) w =
    (Return tt,
     mkBrowser (QUrl_toString qurl) (status w) (windowTitle w)
       (log w ++ [AddressSetText (QUrl_toString qurl)])) /\
  address (deliver (view_urlChanged qurl) w) = QUrl_toString qurl /\
  status (deliver (view_urlChanged qurl) w) = status w /\
  windowTitle (deliver (view_urlChanged qurl) w) = windowTitle w /\
  added (view_urlChanged qurl) w = [AddressSetText (QUrl_toString qurl)] /\
  (forall hostname,
     ~ In (Getaddrinfo hostname) (added (view_urlChanged qurl) w)) /\
  (forall text, ~ In (StatusSetText text) (added (view_urlChanged qurl) w)) /\
  (forall u, ~ In (ViewLoad u) (added (view_urlChanged qurl) w)).
Proof.
  assert (E : added (view_urlChanged qurl) w =
              [AddressSetText (QUrl_toString qurl)]).
  { unfold added, deliver. simpl. apply skipn_own_length. }
  rewrite E. repeat split; try reflexivity;
    intros x [H | []]; discriminate H.
Qed.

(** C9: Home sets the address field to the home URL
    ["https://example.com"] and then navigates from it: the URL normalises
    to itself, its hostname is looked up when parsing gives one, the status
    is updated with the DNS line (or the error line when parsing raises),
    and the view is asked to load ["https://example.com"]; these are
    Home's calls, in this order.  After the [setText] they are the calls Go
    makes, in the same order, in a window where the user has typed the home
    URL, and the texts left in the widgets are the same. *)
Theorem go_home_is_home_url_then_go (w : browser) :
  address (snd (address_setText HOME_URL w)) = HOME_URL /\
  slot home_clicked w = slot go_clicked (snd (address_setText HOME_URL w)) /\
  added home_clicked w =
    AddressSetText HOME_URL ::
    added go_clicked (deliver (address_textEdited HOME_URL) w) /\
  address (deliver home_clicked w) =
    address (deliver go_clicked (deliver (address_textEdited HOME_URL) w)) /\
  status (deliver home_clicked w) =
    status (deliver go_clicked (deliver (address_textEdited HOME_URL) w)) /\
  windowTitle (deliver home_clicked w) =
    windowTitle (deliver go_clicked (deliver (address_textEdited HOME_URL) w)) /\
  HOME_URL = p$"https://example.com" /\
  normalize_url HOME_URL = p$"https://example.com" /\
  fst (slot home_clicked w) = Return tt /\
  address (deliver home_clicked w) = p$"https://example.com" /\
  windowTitle (deliver home_clicked w) = windowTitle w /\
  exists nav,
    added home_clicked w =
      AddressSetText p$"https://example.com" :: nav ++
      [StatusSetText (status (deliver home_clicked w));
       ViewLoad (QUrl_new p$"https://example.com")] /\
    added go_clicked (deliver (address_textEdited HOME_URL) w) =
      nav ++
      [StatusSetText (status (deliver home_clicked w));
       ViewLoad (QUrl_new p$"https://example.com")] /\
    match urlparse_hostname p$"https://example.com" with
    | Return h =>
        nav = [Getaddrinfo (or_empty h)] /\
        exists ips,
          fst (resolve_dns (or_empty h) w) = Return ips /\
          status (deliver home_clicked w) =
            match ips with
            | [] =>
                p$"DNS: " ++ or_empty h ++ p$" " ++ [ARROW] ++
                p$" (no result)"
            | _ :: _ =>
                p$"DNS: " ++ or_empty h ++ p$" " ++ [ARROW] ++ p$" " ++
                join p$", " ips
            end
    | Raise e =>
        nav = [] /\
        status (deliver home_clicked w) = p$"DNS error: " ++ exc_str e
    end.
Proof.
  destruct (load_from_address_run HOME_URL) as [st [nav [Hrun Hcase]]].
  change (normalize_url HOME_URL) with (p$"https://example.com") in Hrun, Hcase.
  assert (Hhome :
            slot home_clicked w =
              (Return tt,
               mkBrowser HOME_URL st (windowTitle w)
                 (log w ++
                  AddressSetText HOME_URL :: nav ++
                  [StatusSetText st;
                   ViewLoad (QUrl_new p$"https://example.com")]))).
  { rewrite (explicit_slot home_clicked w eq_refl).
    rewrite Hrun by reflexivity. cbn [windowTitle log preamble].
    now rewrite <- app_assoc. }
  set (w1 := deliver (address_textEdited HOME_URL) w).
  assert (Hgo :
            slot go_clicked w1 =
              (Return tt,
               mkBrowser HOME_URL st (windowTitle w)
                 (log w ++ nav ++
                  [StatusSetText st;
                   ViewLoad (QUrl_new p$"https://example.com")]))).
  { change (slot go_clicked w1) with (load_from_address w1).
    now rewrite Hrun by reflexivity. }
  assert (Ea : added home_clicked w =
                 AddressSetText HOME_URL :: nav ++
                 [StatusSetText st;
                  ViewLoad (QUrl_new p$"https://example.com")]).
  { unfold added, deliver. rewrite Hhome. apply skipn_own_length. }
  assert (Eg : added go_clicked w1 =
                 nav ++
                 [StatusSetText st;
                  ViewLoad (QUrl_new p$"https://example.com")]).
  { unfold added. unfold deliver at 1. rewrite Hgo.
    change (log w1) with (log w). apply skipn_own_length. }
  split; [reflexivity |]. split; [reflexivity |].
  rewrite Ea, Eg. unfold deliver. rewrite Hhome, Hgo.
  cbn [fst snd address status windowTitle].
  split; [reflexivity |]. split; [reflexivity |]. split; [reflexivity |].
  split; [reflexivity |]. split; [reflexivity |]. split; [reflexivity |].
  split; [reflexivity |]. split; [reflexivity |]. split; [reflexivity |].
  exists nav. split; [reflexivity |]. split; [reflexivity |].
  destruct (urlparse_hostname p$"https://example.com") as [h | e].
  - destruct Hcase as [ips [Hips [Hnav Hst]]]. split; [exact Hnav |].
    exists ips. split; [apply Hips |]. rewrite Hst. now destruct ips.
  - destruct Hcase as [Hnav Hst]. split; [exact Hnav |]. now rewrite Hst.
Qed.


End WindowClaims.

(** ** Closed examples on the demonstration platform *)

Module DemoRuns.

Import Py PyBrowser.

Local Existing Instance Demo.platform.

Example normalize_url_padded :
  normalize_url p$"  ftp://host/x  " = p$"ftp://host/x".
Proof. reflexivity. Qed.

Example normalize_url_nbsp :
  normalize_url ([160%N] ++ p$"example.com" ++ [8195%N]) = p$"http://example.com".
Proof. reflexivity. Qed.

(** A host the resolver does not know. *)
Lemma resolve_dns_unknown_host :
  getaddrinfo p$"nowhere.invalid" = Raise Demo.gaierror /\
  (exists ips,
     fst (resolve_dns p$"nowhere.invalid" (Demo.typed p$"")) = Return ips) /\
  fst (resolve_dns p$"nowhere.invalid" (Demo.typed p$"")) = Return [].
Proof.
  split; [reflexivity |].
  destruct (resolve_dns_never_raises p$"nowhere.invalid" (Demo.typed p$""))
    as [Hret Hfail].
  split; [exact Hret | exact (Hfail Demo.gaierror eq_refl)].
Defined.

(** The records of [example.com] give its two addresses, once each. *)
Lemma example_com_addresses_once :
  getaddrinfo p$"example.com" = Return Demo.example_com /\
  exists ips,
    fst (resolve_dns p$"example.com" (Demo.typed p$"")) = Return ips /\
    NoDup ips /\
    (forall a, In a ips <->
               exists info, In info Demo.example_com /\
                            a = sockaddr_0 (ai_sockaddr info)) /\
    (forall a b, In a ips -> In b ips ->
       (first_index a ips < first_index b ips)%nat <->
       (first_index a
          (map (fun info => sockaddr_0 (ai_sockaddr info)) Demo.example_com) <
        first_index b
          (map (fun info => sockaddr_0 (ai_sockaddr info)) Demo.example_com))%nat).
Proof.
  split; [reflexivity |].
  apply (resolve_dns_first_seen p$"example.com" (Demo.typed p$"")
           Demo.example_com).
  reflexivity.
Defined.

(** Typing [example.com] and pressing Go. *)
Lemma navigation_example_com :
  explicit go_clicked = true /\
  urlparse_hostname
    (normalize_url (entered go_clicked (Demo.typed p$"example.com"))) =
    Return (Some p$"example.com") /\
  fst (resolve_dns p$"example.com" (Demo.typed p$"example.com")) =
    Return [p$"93.184.216.34"; p$"2606:2800:220:1::1946"] /\
  status (deliver go_clicked (Demo.typed p$"example.com")) =
    p$"DNS: example.com " ++ [ARROW] ++
    p$" 93.184.216.34, 2606:2800:220:1::1946" /\
  added go_clicked (Demo.typed p$"example.com") =
    [Getaddrinfo p$"example.com";
     StatusSetText (status (deliver go_clicked (Demo.typed p$"example.com")));
     ViewLoad (QUrl_new p$"http://example.com")].
Proof.
  split; [reflexivity |]. split; [reflexivity |]. split; [reflexivity |].
  apply (navigation_shows_dns_then_loads go_clicked
           (Demo.typed p$"example.com") (Some p$"example.com")
           [p$"93.184.216.34"; p$"2606:2800:220:1::1946"]);
    reflexivity.
Defined.

(** The status line after that navigation is not the specification's
    ["example.com -> 93.184.216.34, 2606:2800:220:1::1946"]. *)
Lemma status_line_not_as_specified :
  explicit go_clicked = true /\
  urlparse_hostname
    (normalize_url (entered go_clicked (Demo.typed p$"example.com"))) =
    Return (Some p$"example.com") /\
  fst (resolve_dns p$"example.com" (Demo.typed p$"example.com")) =
    Return [p$"93.184.216.34"; p$"2606:2800:220:1::1946"] /\
  status (deliver go_clicked (Demo.typed p$"example.com")) <>
    spec_status_line p$"example.com"
      [p$"93.184.216.34"; p$"2606:2800:220:1::1946"].
Proof.
  split; [reflexivity |]. split; [reflexivity |]. split; [reflexivity |].
  vm_compute. discriminate.
Qed.

(** Typing [[::1] and pressing Enter: parsing raises, the load is made. *)
Lemma parse_error_example :
  explicit address_returnPressed = true /\
  fst (slot address_returnPressed (Demo.typed p$"[::1")) = Return tt /\
  (exists before,
     added address_returnPressed (Demo.typed p$"[::1") =
       before ++ [ViewLoad (QUrl_new p$"http://[::1")]) /\
  (forall e,
     urlparse_hostname p$"http://[::1" = Raise e ->
     status (deliver address_returnPressed (Demo.typed p$"[::1")) =
       p$"DNS error: " ++ exc_str e /\
     added address_returnPressed (Demo.typed p$"[::1") =
       [StatusSetText (p$"DNS error: " ++ exc_str e);
        ViewLoad (QUrl_new p$"http://[::1")]).
Proof.
  split; [reflexivity |].
  apply (parse_error_shown_and_load_proceeds address_returnPressed
           (Demo.typed p$"[::1")).
  reflexivity.
Defined.

Example parse_error_status :
  status (deliver address_returnPressed (Demo.typed p$"[::1")) =
    p$"DNS error: Invalid IPv6 URL".
Proof. reflexivity. Qed.

Example home_after_typing :
  added home_clicked (Demo.typed p$"nowhere.invalid") =
    [AddressSetText p$"https://example.com";
     Getaddrinfo p$"example.com";
     StatusSetText (p$"DNS: example.com " ++ [ARROW] ++
                    p$" 93.184.216.34, 2606:2800:220:1::1946");
     ViewLoad (QUrl_new p$"https://example.com")].
Proof. reflexivity. Qed.

Example unresolved_host :
  status (deliver go_clicked (Demo.typed p$" nowhere.invalid ")) =
    p$"DNS: nowhere.invalid " ++ [ARROW] ++ p$" (no result)".
Proof. reflexivity. Qed.

Example load_progress_title :
  windowTitle (deliver (view_loadProgress 42) (Demo.typed p$"")) =
    p$"PyBrowser   42%" /\
  windowTitle (deliver (view_loadProgress 100) (Demo.typed p$"")) =
    p$"PyBrowser".
Proof. split; reflexivity. Qed.

End DemoRuns.

(** * Further properties *)

(** ** More on the normaliser *)

Module NormalizerMore.

Import Py PyFacts.

Lemma trimmed_pad (l s r t : str) :
  Spaces l -> Spaces r -> Trimmed s t -> Trimmed (l ++ s ++ r) t.
Proof.
  intros Hl Hr [l' [r' [-> [Hl' [Hr' Ht]]]]].
  exists (l ++ l'), (r' ++ r). split.
  - now rewrite <- !app_assoc.
  - split; [| split; [| exact Ht]]; apply Forall_app; split; assumption.
Qed.

Lemma strip_pad (l s r : str) :
  Spaces l -> Spaces r -> strip (l ++ s ++ r) = strip s.
Proof.
  intros Hl Hr. symmetry. apply trimmed_strip, trimmed_pad; try assumption.
  apply strip_trimmed.
Qed.

Lemma normalize_url_of_strip (s s' : str) :
  strip s = strip s' -> normalize_url s = normalize_url s'.
Proof. intros E. now rewrite !normalize_url_unfold, E. Qed.

Lemma normalize_url_blank (s : str) : Spaces s -> normalize_url s = FALLBACK_URL.
Proof.
  intros H. rewrite normalize_url_unfold. unfold strip.
  now rewrite (lstrip_all_spaces _ H).
Qed.

(** The normalised URL carries no whitespace at either end, so stripping
    it again changes nothing. *)
Theorem normalize_url_no_outer_space (s : str) :
  (forall c r, normalize_url s = c :: r -> isspace c = false) /\
  (forall r c, normalize_url s = r ++ [c] -> isspace c = false) /\
  strip (normalize_url s) = normalize_url s.
Proof.
  destruct (normalize_url_shape s) as [_ [Ht _]].
  pose proof (tight_strip _ Ht) as E. destruct Ht as [H1 H2].
  split; [exact H1 | split; [exact H2 | exact E]].
Qed.

(** Whitespace around the typed text does not matter: padding the text
    on either side gives the same URL. *)
Theorem normalize_url_ignores_padding (l s r : str) :
  Spaces l -> Spaces r -> normalize_url (l ++ s ++ r) = normalize_url s.
Proof.
  intros Hl Hr. apply normalize_url_of_strip. now apply strip_pad.
Qed.

End NormalizerMore.

(** ** More on the resolver *)

Module ResolverMore.

Import Py PyFacts ResolverFacts.

Lemma addresses_snoc (infos : list addrinfo) (info : addrinfo) :
  addresses (infos ++ [info]) =
    addresses infos ++ [sockaddr_0 (ai_sockaddr info)].
Proof. unfold addresses. now rewrite map_app. Qed.

Lemma mem_false_iff (x : str) (xs : list str) : mem x xs = false <-> ~ In x xs.
Proof. rewrite <- mem_true_iff. now destruct (mem x xs). Qed.

Lemma collected_nil_iff (infos : list addrinfo) :
  collected infos = [] <-> infos = [].
Proof.
  split; [| now intros ->].
  destruct infos as [| info rest]; [reflexivity |]. intros E.
  assert (H : In (sockaddr_0 (ai_sockaddr info)) (collected (info :: rest))).
  { apply collected_In. now left. }
  rewrite E in H. destruct H.
Qed.

Lemma collected_length (infos : list addrinfo) :
  (List.length (collected infos) <= List.length infos)%nat.
Proof.
  induction infos as [| info infos IH] using rev_ind; [apply Nat.le_refl |].
  rewrite collected_snoc, length_app. unfold collect_ip. simpl.
  destruct (mem _ (collected infos)); simpl; [lia |].
  rewrite length_app. simpl. lia.
Qed.

Lemma collected_distinct (infos : list addrinfo) :
  NoDup (addresses infos) -> collected infos = addresses infos.
Proof.
  induction infos as [| info infos IH] using rev_ind; [reflexivity |].
  rewrite addresses_snoc, collected_snoc. intros H.
  pose proof (NoDup_remove_1 _ _ _ H) as H1.
  pose proof (NoDup_remove_2 _ _ _ H) as H2.
  rewrite app_nil_r in H1, H2. rewrite (IH H1). unfold collect_ip.
  now rewrite (proj2 (mem_false_iff _ _) H2).
Qed.

(** The loop started from [acc]: what it appends is what the loop started
    from nothing collects, less what [acc] already holds. *)
Lemma fold_collect_from (infos : list addrinfo) (acc : list str) :
  fold_left collect_ip infos acc =
    acc ++ filter (fun a => negb (mem a acc)) (collected infos).
Proof.
  induction infos as [| info infos IH] using rev_ind.
  - simpl. now rewrite app_nil_r.
  - rewrite fold_left_app, collected_snoc. simpl. rewrite IH.
    unfold collect_ip. set (ip := sockaddr_0 (ai_sockaddr info)).
    set (kept := filter _ (collected infos)).
    destruct (mem ip (acc ++ kept)) eqn:E1; simpl.
    + destruct (mem ip (collected infos)) eqn:E2; simpl; [reflexivity |].
      rewrite filter_app. simpl.
      apply mem_true_iff, in_app_or in E1. destruct E1 as [E1 | E1].
      * apply mem_true_iff in E1. rewrite E1. simpl. now rewrite app_nil_r.
      * apply filter_In in E1 as [E1 _].
        apply mem_true_iff in E1. congruence.
    + apply mem_false_iff in E1.
      assert (Hacc : mem ip acc = false).
      { apply mem_false_iff. intros H. apply E1, in_or_app. now left. }
      assert (Hcol : mem ip (collected infos) = false).
      { apply mem_false_iff. intros H. apply E1, in_or_app. right.
        apply filter_In. split; [exact H | now rewrite Hacc]. }
      rewrite Hcol. simpl. rewrite filter_app. simpl. rewrite Hacc. simpl.
      now rewrite app_assoc.
Qed.

Lemma collected_app (l1 l2 : list addrinfo) :
  collected (l1 ++ l2) =
    collected l1 ++
    filter (fun a => negb (mem a (collected l1))) (collected l2).
Proof.
  unfold collected at 1. rewrite fold_left_app. apply fold_collect_from.
Qed.

End ResolverMore.

Section ResolverExtras.

Import Py ResolverFacts ResolverMore.
Context {P : Platform}.

(** [resolve_dns] makes one query of the resolver, for the hostname it is
    given, and changes no widget, whether the resolver answers or fails. *)
Theorem resolve_dns_one_query (hostname : str) (w : browser) :
  address (snd (resolve_dns hostname w)) = address w /\
  status (snd (resolve_dns hostname w)) = status w /\
  windowTitle (snd (resolve_dns hostname w)) = windowTitle w /\
  log (snd (resolve_dns hostname w)) = log w ++ [Getaddrinfo hostname].
Proof. rewrite resolve_dns_run. repeat split. Qed.

(** The list is empty exactly when the resolver failed or had no record,
    and it never has more entries than the resolver gave records. *)
Theorem resolve_dns_empty_iff (hostname : str) (w : browser) :
  (fst (resolve_dns hostname w) = Return [] <->
   (exists e, getaddrinfo hostname = Raise e) \/
   getaddrinfo hostname = Return []) /\
  (forall infos,
     getaddrinfo hostname = Return infos ->
     exists ips,
       fst (resolve_dns hostname w) = Return ips /\
       (List.length ips <= List.length infos)%nat).
Proof.
  rewrite resolve_dns_run. simpl. split.
  - destruct (getaddrinfo hostname) as [infos | e].
    + split.
      * intros E. injection E as E. apply collected_nil_iff in E.
        right. now subst.
      * intros [[e E] | E]; [discriminate | injection E as ->; reflexivity].
    + split; [intros _; left; now exists e | reflexivity].
  - intros infos ->. exists (collected infos).
    split; [reflexivity | apply collected_length].
Qed.

(** Records with pairwise distinct addresses are all kept, in their
    order. *)
Theorem resolve_dns_distinct_records (hostname : str) (w : browser)
    (infos : list addrinfo) :
  getaddrinfo hostname = Return infos ->
  NoDup (map (fun info => sockaddr_0 (ai_sockaddr info)) infos) ->
  fst (resolve_dns hostname w) =
    Return (map (fun info => sockaddr_0 (ai_sockaddr info)) infos).
Proof.
  intros E H. rewrite resolve_dns_run, E. simpl.
  now rewrite (collected_distinct infos H).
Qed.

(** Records in two batches: the list is what the first batch gives,
    followed by what the second gives less the addresses of the first. *)
Theorem resolve_dns_concat (hostname : str) (w : browser)
    (l1 l2 : list addrinfo) :
  getaddrinfo hostname = Return (l1 ++ l2) ->
  fst (resolve_dns hostname w) =
    Return (fold_left collect_ip l1 [] ++
            filter (fun a => negb (mem a (fold_left collect_ip l1 [])))
                   (fold_left collect_ip l2 [])).
Proof.
  intros E. rewrite resolve_dns_run, E. simpl. now rewrite collected_app.
Qed.

(** The first entry of the list is the address of the first record, and
    it does not come again. *)
Theorem resolve_dns_first_record (hostname : str) (w : browser)
    (info : addrinfo) (rest : list addrinfo) :
  getaddrinfo hostname = Return (info :: rest) ->
  exists tail,
    fst (resolve_dns hostname w) =
      Return (sockaddr_0 (ai_sockaddr info) :: tail) /\
    ~ In (sockaddr_0 (ai_sockaddr info)) tail.
Proof.
  intros E. rewrite resolve_dns_run, E. simpl.
  pose proof (collected_app [info] rest) as Happ.
  pose proof (collected_NoDup (info :: rest)) as Hnd.
  simpl in Happ. rewrite Happ in *. eexists. split; [reflexivity |].
  change (collected [info]) with [sockaddr_0 (ai_sockaddr info)] in Hnd.
  now inversion Hnd.
Qed.

End ResolverExtras.

(** ** More on the window *)

Module WindowMore.

Import Py PyFacts PyBrowser ResolverFacts WindowFacts NormalizerMore.

(** Walks a list of calls of known length up to the load at which an
    equation splits it. *)
Ltac at_load E :=
  lazymatch type of E with
  | _ = ?pre ++ _ :: _ =>
      destruct pre as [| ? pre]; simpl in E;
      [ first
          [ discriminate E
          | lazymatch goal with
            | |- exists _ _, ?done = _ =>
                exists (removelast done); eexists; reflexivity
            end ]
      | first [ discriminate E | injection E as <- E; at_load E ] ]
  end.

Lemma filter_none {A} (f : A -> bool) (l : list A) :
  Forall (fun x => f x = false) l -> filter f l = [].
Proof.
  induction 1 as [| x l Hx _ IH]; simpl; [reflexivity | now rewrite Hx].
Qed.

Section Run.

Context {P : Platform}.

Lemma status_before_load_app (l b : list effect) :
  status_before_load l -> status_before_load b -> status_before_load (l ++ b).
Proof.
  intros Hl Hb pre u post E.
  apply app_eq_app in E as [m [[E1 E2] | [E1 E2]]].
  - destruct m as [| e m].
    + destruct (Hb [] u post (eq_sym E2)) as [pre' [st H]]. now destruct pre'.
    + simpl in E2. injection E2 as <- E2. subst l.
      now apply (Hl pre u m).
  - destruct (Hb m u post E2) as [pre' [st ->]].
    exists (l ++ pre'), st. now rewrite E1, app_assoc.
Qed.

(** What a navigating trigger does, in one equation. *)
Lemma explicit_run (s : signal) (w : browser) :
  explicit s = true ->
  exists st nav,
    slot s w =
      (Return tt,
       mkBrowser (entered s w) st (windowTitle w)
         (log w ++ preamble s ++ nav ++
            [StatusSetText st;
             ViewLoad (QUrl_new (normalize_url (entered s w)))])) /\
    (nav = [] \/ exists hostname, nav = [Getaddrinfo hostname]) /\
    startswith st p$"DNS" = true.
Proof.
  intros Hs. rewrite (explicit_slot s w Hs).
  destruct (load_from_address_run (entered s w)) as [st [nav [Hrun Hcase]]].
  exists st, nav. rewrite Hrun by reflexivity. simpl.
  rewrite <- app_assoc. split; [reflexivity |].
  destruct (urlparse_hostname _) as [h | e].
  - destruct Hcase as [ips [_ [-> ->]]]. split.
    + right. eexists. reflexivity.
    + now destruct ips.
  - destruct Hcase as [-> ->]. split; [now left | reflexivity].
Qed.

(** What one signal does to the window: the calls it adds, how many of
    each kind, and the texts it leaves. *)
Lemma deliver_summary (s : signal) (w : browser) :
  exists block,
    fst (slot s w) = Return tt /\
    log (deliver s w) = log w ++ block /\
    List.length (filter is_load block) = (if explicit s then 1 else 0)%nat /\
    List.length (filter is_status block) = (if explicit s then 1 else 0)%nat /\
    (List.length (filter is_query block) <= if explicit s then 1 else 0)%nat /\
    status_before_load block /\
    (if explicit s then startswith (status (deliver s w)) p$"DNS" = true
     else status (deliver s w) = status w) /\
    (windowTitle (deliver s w) = windowTitle w \/
     title_shape (windowTitle (deliver s w))).
Proof.
  destruct (explicit s) eqn:Hs.
  - destruct (explicit_run s w Hs) as [st [nav [Hrun [Hnav Hst]]]].
    exists (preamble s ++ nav ++
              [StatusSetText st;
               ViewLoad (QUrl_new (normalize_url (entered s w)))]).
    unfold deliver. rewrite Hrun. simpl.
    assert (Hpre : preamble s = [] \/ preamble s = [AddressSetText HOME_URL])
      by (destruct s; simpl; auto).
    repeat split; try assumption.
    + destruct Hpre as [-> | ->], Hnav as [-> | [h ->]]; reflexivity.
    + destruct Hpre as [-> | ->], Hnav as [-> | [h ->]]; reflexivity.
    + destruct Hpre as [-> | ->], Hnav as [-> | [h ->]]; simpl; lia.
    + destruct Hpre as [-> | ->], Hnav as [-> | [h ->]];
        intros pre u post E; simpl in E; at_load E.
    + now left.
  - destruct s; try discriminate Hs; unfold deliver; simpl.
    + exists [ViewBack]. repeat split; auto.
      intros pre u post E; at_load E.
    + exists [ViewForward]. repeat split; auto.
      intros pre u post E; at_load E.
    + exists [ViewReload]. repeat split; auto.
      intros pre u post E; at_load E.
    + exists [AddressSetText (QUrl_toString qurl)]. repeat split; auto.
      intros pre u post E; at_load E.
    + unfold on_load_progress, bind, setWindowTitle, ret.
      destruct (percent =? 100)%Z eqn:Hp; simpl.
      * eexists [_; _]. rewrite <- app_assoc. simpl. repeat split; auto.
        -- intros pre u post E; at_load E.
        -- right. now left.
      * eexists [_]. repeat split; auto.
        -- intros pre u post E; at_load E.
        -- right. right. exists percent. split; [| reflexivity].
           now apply Z.eqb_neq.
    + exists []. rewrite app_nil_r. repeat split; auto.
      intros pre u post E; at_load E.
Qed.

Lemma added_block (s : signal) (w : browser) (block : list effect) :
  log (deliver s w) = log w ++ block -> added s w = block.
Proof. intros E. unfold added. rewrite E. apply skipn_own_length. Qed.

Lemma run_snoc (signals : list signal) (s : signal) (w : browser) :
  run (signals ++ [s]) w = deliver s (run signals w).
Proof. unfold run. now rewrite fold_left_app. Qed.

End Run.

End WindowMore.

Module SessionFacts.

Import Py PyFacts PyBrowser WindowFacts WindowMore.

Section Run.

Context {P : Platform}.

(** The window [__init__] leaves is the one Go leaves when the title and
    the home URL are already set. *)
Lemma init_is_go :
  init fresh =
    slot go_clicked
      (mkBrowser HOME_URL p$"Ready" p$"PyBrowser"
         [SetWindowTitle p$"PyBrowser"; AddressSetText HOME_URL]).
Proof. reflexivity. Qed.

(** What holds of the window after construction and any signals. *)
Lemma main_invariant (signals : list signal) :
  List.length (filter is_load (log (main signals))) =
    S (List.length (filter explicit signals)) /\
  List.length (filter is_status (log (main signals))) =
    S (List.length (filter explicit signals)) /\
  (List.length (filter is_query (log (main signals))) <=
     S (List.length (filter explicit signals)))%nat /\
  status_before_load (log (main signals)) /\
  startswith (status (main signals)) p$"DNS" = true /\
  title_shape (windowTitle (main signals)).
Proof.
  induction signals as [| s signals IH] using rev_ind.
  - unfold main, run. simpl fold_left. rewrite init_is_go.
    destruct (explicit_run go_clicked
                (mkBrowser HOME_URL p$"Ready" p$"PyBrowser"
                   [SetWindowTitle p$"PyBrowser"; AddressSetText HOME_URL])
                eq_refl) as [st [nav [Hrun [Hnav Hst]]]].
    rewrite Hrun. cbn [snd log status windowTitle preamble].
    repeat split; try assumption.
    + destruct Hnav as [-> | [h ->]]; reflexivity.
    + destruct Hnav as [-> | [h ->]]; reflexivity.
    + destruct Hnav as [-> | [h ->]]; simpl; lia.
    + destruct Hnav as [-> | [h ->]];
        intros pre u post E; simpl in E; at_load E.
    + now left.
  - destruct IH as [Hl [Hs [Hq [Ho [Hd Ht]]]]].
    unfold main in *. rewrite run_snoc.
    set (w := run signals (snd (init fresh))) in *.
    destruct (deliver_summary s w)
      as [block [_ [Elog [Bl [Bs [Bq [Bo [Bd Bt]]]]]]]].
    assert (Hx : List.length (filter explicit [s]) =
                 (if explicit s then 1 else 0)%nat)
      by (simpl; now destruct (explicit s)).
    assert (Htitle : title_shape (windowTitle (deliver s w)))
      by (destruct Bt as [Bt | Bt]; [now rewrite Bt | exact Bt]).
    rewrite Elog, !filter_app, !length_app, Hl, Hs, Bl, Bs, Hx.
    destruct (explicit s).
    + split; [lia |]. split; [lia |]. split; [lia |].
      split; [now apply status_before_load_app |].
      split; [exact Bd | exact Htitle].
    + split; [lia |]. split; [lia |]. split; [lia |].
      split; [now apply status_before_load_app |].
      split; [now rewrite Bd | exact Htitle].
Qed.

End Run.

End SessionFacts.

Section WindowExtras.

Import Py PyFacts PyBrowser WindowFacts WindowMore NormalizerMore SessionFacts.
Context {P : Platform}.

(** A load-progress event puts the percentage in the title, and at 100
    puts the plain title back with a second call; the address and the
    status are not touched. *)
Theorem load_progress_sets_title (percent : Z) (w : browser) :
  windowTitle (deliver (view_loadProgress percent) w) =
    (if (percent =? 100)%Z then p$"PyBrowser"
     else p$"PyBrowser   " ++ of_int percent ++ p$"%") /\
  address (deliver (view_loadProgress percent) w) = address w /\
  status (deliver (view_loadProgress percent) w) = status w /\
  added (view_loadProgress percent) w =
    SetWindowTitle (p$"PyBrowser   " ++ of_int percent ++ p$"%") ::
    (if (percent =? 100)%Z then [SetWindowTitle p$"PyBrowser"] else []).
Proof.
  unfold added, deliver. cbn [slot].
  unfold on_load_progress, bind, setWindowTitle, ret.
  destruct (percent =? 100)%Z; cbn [snd fst log windowTitle address status];
    rewrite <- ?app_assoc, skipn_own_length; repeat split.
Qed.

(** A signal other than Go, Enter and Home leaves the status line as it
    is, and makes no resolver query, no status update and no load. *)
Theorem quiet_signals_leave_status (s : signal) (w : browser) :
  explicit s = false ->
  status (deliver s w) = status w /\
  (forall e, In e (added s w) ->
     is_load e = false /\ is_status e = false /\ is_query e = false).
Proof.
  intros Hs.
  destruct (deliver_summary s w)
    as [block [_ [Elog [Bl [Bs [Bq [_ [Bd _]]]]]]]].
  rewrite Hs in *. split; [exact Bd |].
  rewrite (added_block s w block Elog). intros e He.
  assert (Hnone : forall f, (List.length (filter f block) <= 0)%nat ->
                            f e = false).
  { intros f Hf. destruct (f e) eqn:Hfe; [| reflexivity].
    assert (Hin : In e (filter f block)) by (apply filter_In; now split).
    destruct (filter f block); [destruct Hin | simpl in Hf; lia]. }
  repeat split; apply Hnone; lia.
Qed.

(** Back, Forward and Reload each make one call, on the view, and leave
    the address, the status and the title as they are. *)
Theorem history_buttons_delegate (w : browser) :
  added back_clicked w = [ViewBack] /\
  added fwd_clicked w = [ViewForward] /\
  added reload_clicked w = [ViewReload] /\
  (forall s, s = back_clicked \/ s = fwd_clicked \/ s = reload_clicked ->
     address (deliver s w) = address w /\
     status (deliver s w) = status w /\
     windowTitle (deliver s w) = windowTitle w).
Proof.
  unfold added, deliver. simpl. rewrite !skipn_own_length.
  repeat split; destruct H as [-> | [-> | ->]]; reflexivity.
Qed.

(** Go and Enter leave the address field as typed and Home leaves the home
    URL in it; none changes the title.  Each makes one status update, which
    begins with [DNS], one load, and at most one resolver query. *)
Theorem navigation_frame (s : signal) (w : browser) :
  explicit s = true ->
  address (deliver s w) = entered s w /\
  windowTitle (deliver s w) = windowTitle w /\
  List.length (filter is_status (added s w)) = 1%nat /\
  List.length (filter is_load (added s w)) = 1%nat /\
  (List.length (filter is_query (added s w)) <= 1)%nat /\
  startswith (status (deliver s w)) p$"DNS" = true.
Proof.
  intros Hs.
  destruct (deliver_summary s w)
    as [block [_ [Elog [Bl [Bs [Bq [_ [Bd _]]]]]]]].
  rewrite (added_block s w block Elog). rewrite Hs in *.
  destruct (explicit_run s w Hs) as [st [nav [Hrun _]]].
  unfold deliver in *. rewrite Hrun in *. simpl in *. now repeat split.
Qed.

(** No slot lets an exception out, whatever the signal and the window. *)
Theorem no_slot_raises (s : signal) (w : browser) :
  fst (slot s w) = Return tt.
Proof. now destruct (deliver_summary s w) as [block [H _]]. Qed.

(** Go or Enter on an address of whitespace only, or none, loads the
    fallback URL and leaves the address field as it is. *)
Theorem blank_address_loads_fallback (s : signal) (w : browser) :
  s = go_clicked \/ s = address_returnPressed ->
  Spaces (address w) ->
  (exists before,
     added s w = before ++ [ViewLoad (QUrl_new p$"http://example.com")]) /\
  address (deliver s w) = address w.
Proof.
  intros Hs Hblank.
  assert (He : explicit s = true) by (destruct Hs as [-> | ->]; reflexivity).
  assert (Ha : entered s w = address w) by (destruct Hs as [-> | ->]; reflexivity).
  destruct (explicit_run s w He) as [st [nav [Hrun _]]].
  unfold added, deliver. rewrite Hrun. simpl.
  rewrite skipn_own_length, Ha, (normalize_url_blank _ Hblank).
  split; [| reflexivity].
  exists (preamble s ++ nav ++ [StatusSetText st]).
  now rewrite <- !app_assoc.
Qed.

(** After the view reports a URL, Go navigates to that URL's string,
    normalised. *)
Theorem url_changed_then_go (qurl : QUrl) (w : browser) :
  (exists before,
     added go_clicked (deliver (view_urlChanged qurl) w) =
       before ++ [ViewLoad (QUrl_new (normalize_url (QUrl_toString qurl)))]) /\
  address (deliver go_clicked (deliver (view_urlChanged qurl) w)) =
    QUrl_toString qurl.
Proof.
  assert (Ha : address (deliver (view_urlChanged qurl) w) = QUrl_toString qurl)
    by reflexivity.
  revert Ha. generalize (deliver (view_urlChanged qurl) w). intros w1 Ha.
  destruct (explicit_run go_clicked w1 eq_refl) as [st [nav [Hrun _]]].
  unfold added, deliver. rewrite Hrun.
  cbn [snd log address entered preamble app].
  rewrite skipn_own_length, Ha. split; [| reflexivity].
  exists (nav ++ [StatusSetText st]). now rewrite <- app_assoc.
Qed.


(** In any session, the loads and the status updates made are each one
    more than the Go, Enter and Home signals received, and the resolver
    queries are no more than that. *)
Theorem session_counts (signals : list signal) :
  List.length (filter is_load (log (main signals))) =
    S (List.length (filter explicit signals)) /\
  List.length (filter is_status (log (main signals))) =
    S (List.length (filter explicit signals)) /\
  (List.length (filter is_query (log (main signals))) <=
     S (List.length (filter explicit signals)))%nat.
Proof.
  destruct (main_invariant signals) as [H1 [H2 [H3 _]]]. now repeat split.
Qed.

(** In any session, every load the view is asked for comes right after a
    status update. *)
Theorem session_status_before_load (signals : list signal)
    (pre post : list effect) (u : QUrl) :
  log (main signals) = pre ++ ViewLoad u :: post ->
  exists pre' st, pre = pre' ++ [StatusSetText st].
Proof.
  destruct (main_invariant signals) as [_ [_ [_ [H _]]]]. apply H.
Qed.

(** In any session, the status line begins with [DNS] and the title is
    the plain one or one with a percentage other than 100. *)
Theorem session_texts (signals : list signal) :
  startswith (status (main signals)) p$"DNS" = true /\
  (windowTitle (main signals) = p$"PyBrowser" \/
   exists percent : Z,
     percent <> 100%Z /\
     windowTitle (main signals) =
       p$"PyBrowser   " ++ of_int percent ++ p$"%").
Proof.
  destruct (main_invariant signals) as [_ [_ [_ [_ [H1 H2]]]]].
  split; [exact H1 | exact H2].
Qed.

End WindowExtras.

(** ** Closed examples for the further properties *)

Module MoreRuns.

Import Py PyBrowser.

Lemma padding_example :
  Spaces p$"  " /\ Spaces [9%N; 160%N] /\
  normalize_url (p$"  " ++ p$"example.com/a b" ++ [9%N; 160%N]) =
    normalize_url p$"example.com/a b".
Proof.
  assert (H1 : Spaces p$"  ") by (unfold Spaces; repeat constructor).
  assert (H2 : Spaces [9%N; 160%N]) by (unfold Spaces; repeat constructor).
  split; [exact H1 |]. split; [exact H2 |].
  exact (NormalizerMore.normalize_url_ignores_padding
           p$"  " p$"example.com/a b" [9%N; 160%N] H1 H2).
Defined.

Lemma empty_answer_example :
  getaddrinfo (Platform := Lab.platform) p$"empty.test" = Return [] /\
  fst (resolve_dns (P := Lab.platform) p$"empty.test" Lab.window) = Return [].
Proof.
  split; [reflexivity |].
  apply (proj1 (resolve_dns_empty_iff (P := Lab.platform)
                  p$"empty.test" Lab.window)).
  right. reflexivity.
Defined.

Lemma dual_stack_example :
  getaddrinfo (Platform := Lab.platform) p$"dual.test" =
    Return Lab.dual_stack /\
  NoDup (map (fun info => sockaddr_0 (ai_sockaddr info)) Lab.dual_stack) /\
  fst (resolve_dns (P := Lab.platform) p$"dual.test" Lab.window) =
    Return [p$"192.0.2.7"; p$"2001:db8::7"].
Proof.
  assert (H : NoDup (map (fun info => sockaddr_0 (ai_sockaddr info))
                         Lab.dual_stack)).
  { repeat constructor; simpl; intuition discriminate. }
  split; [reflexivity |]. split; [exact H |].
  exact (resolve_dns_distinct_records (P := Lab.platform)
           p$"dual.test" Lab.window Lab.dual_stack eq_refl H).
Defined.

Lemma two_batches_example :
  getaddrinfo (Platform := Demo.platform) p$"example.com" =
    Return (firstn 2 Demo.example_com ++ skipn 2 Demo.example_com) /\
  fst (resolve_dns (P := Demo.platform) p$"example.com" (Demo.typed p$"")) =
    Return ([p$"93.184.216.34"] ++ [p$"2606:2800:220:1::1946"]).
Proof.
  split; [reflexivity |].
  exact (resolve_dns_concat (P := Demo.platform) p$"example.com"
           (Demo.typed p$"") (firstn 2 Demo.example_com)
           (skipn 2 Demo.example_com) eq_refl).
Defined.

Lemma first_record_example :
  getaddrinfo (Platform := Demo.platform) p$"example.com" =
    Return (hd (mkAddrinfo 0 0 0 [] (sockaddr_in [] 0)) Demo.example_com ::
            tl Demo.example_com) /\
  exists tail,
    fst (resolve_dns (P := Demo.platform) p$"example.com" (Demo.typed p$"")) =
      Return (p$"93.184.216.34" :: tail) /\
    ~ In p$"93.184.216.34" tail.
Proof.
  split; [reflexivity |].
  exact (resolve_dns_first_record (P := Demo.platform) p$"example.com"
           (Demo.typed p$"") _ (tl Demo.example_com) eq_refl).
Defined.

Lemma reload_example :
  explicit (P := Demo.platform) reload_clicked = false /\
  status (deliver reload_clicked (Demo.typed p$"example.com")) = p$"Ready" /\
  (forall e,
     In e (added reload_clicked (Demo.typed p$"example.com")) ->
     is_load e = false /\ is_status e = false /\ is_query e = false).
Proof.
  split; [reflexivity |].
  exact (quiet_signals_leave_status (P := Demo.platform) reload_clicked
           (Demo.typed p$"example.com") eq_refl).
Defined.

Lemma home_frame_example :
  explicit (P := Demo.platform) home_clicked = true /\
  address (deliver home_clicked (Demo.typed p$"nowhere.invalid")) =
    p$"https://example.com" /\
  windowTitle (deliver home_clicked (Demo.typed p$"nowhere.invalid")) =
    p$"PyBrowser" /\
  List.length
    (filter is_status (added home_clicked (Demo.typed p$"nowhere.invalid"))) =
    1%nat /\
  List.length
    (filter is_load (added home_clicked (Demo.typed p$"nowhere.invalid"))) =
    1%nat /\
  (List.length
     (filter is_query (added home_clicked (Demo.typed p$"nowhere.invalid"))) <=
     1)%nat /\
  startswith (status (deliver home_clicked (Demo.typed p$"nowhere.invalid")))
    p$"DNS" = true.
Proof.
  split; [reflexivity |].
  exact (navigation_frame (P := Demo.platform) home_clicked
           (Demo.typed p$"nowhere.invalid") eq_refl).
Defined.

Lemma blank_go_example :
  Spaces (address (Demo.typed p$"   ")) /\
  (exists before,
     added go_clicked (Demo.typed p$"   ") =
       before ++ [ViewLoad (QUrl_new (Platform := Demo.platform)
                              p$"http://example.com")]) /\
  address (deliver go_clicked (Demo.typed p$"   ")) = p$"   ".
Proof.
  assert (H : Spaces (address (Demo.typed p$"   ")))
    by (unfold Spaces; repeat constructor).
  split; [exact H |].
  exact (blank_address_loads_fallback (P := Demo.platform) go_clicked
           (Demo.typed p$"   ") (or_introl eq_refl) H).
Defined.

Lemma second_load_example :
  log (main (P := Demo.platform) [address_textEdited p$"[::1"; go_clicked]) =
    [SetWindowTitle p$"PyBrowser";
     AddressSetText p$"https://example.com";
     Getaddrinfo p$"example.com";
     StatusSetText (p$"DNS: example.com " ++ [ARROW] ++
                    p$" 93.184.216.34, 2606:2800:220:1::1946");
     ViewLoad (QUrl_new (Platform := Demo.platform) p$"https://example.com");
     StatusSetText p$"DNS error: Invalid IPv6 URL"]
    ++ ViewLoad (QUrl_new (Platform := Demo.platform) p$"http://[::1") :: [] /\
  exists pre' st,
    [SetWindowTitle p$"PyBrowser";
     AddressSetText p$"https://example.com";
     Getaddrinfo p$"example.com";
     StatusSetText (p$"DNS: example.com " ++ [ARROW] ++
                    p$" 93.184.216.34, 2606:2800:220:1::1946");
     ViewLoad (QUrl_new (Platform := Demo.platform) p$"https://example.com");
     StatusSetText p$"DNS error: Invalid IPv6 URL"] =
    pre' ++ [StatusSetText (P := Demo.platform) st].
Proof.
  split; [reflexivity |].
  exact (session_status_before_load (P := Demo.platform)
           [address_textEdited p$"[::1"; go_clicked] _ [] _ eq_refl).
Defined.

End MoreRuns.
